(** * The legal-documents RAG notebook and the AstraDB notebook

    The two notebooks are straight-line orchestration code: they list a
    directory, hand files to the parsing client, build or load a vector
    index, and query it.  The cells are embedded here as programs of a small
    state-and-exception monad over a [World] (file system, standard output);
    the services the cells call are an abstract interface ([Collaborators]). *)

From stdpp Require Import gmap strings list fin_maps.
From Stdlib Require Import Strings.Ascii Strings.Byte ZArith.

(** ** Python values: exceptions and results *)

(** The [errno] values of the [OSError]s the cells can meet. *)
Inductive errno : Set := ENOENT | ENOTDIR | EACCES | EISDIR | ENXIO.

(** [OSError e path] is [FileNotFoundError] for [ENOENT], [NotADirectoryError]
    for [ENOTDIR], [PermissionError] for [EACCES], [IsADirectoryError] for
    [EISDIR].  [Exception cls msg] is any exception a library raises, with the
    name of its class. *)
Inductive exn : Set :=
  | OSError (e : errno) (filename : string)
  | Exception (cls : string) (msg : string).

Inductive result (E A : Type) : Type :=
  | Ok (a : A)
  | Raise (e : E).
Arguments Ok {E A} a.
Arguments Raise {E A} e.

Definition is_ok {E A} (r : result E A) : bool :=
  match r with Ok _ => true | Raise _ => false end.

Definition res_bind {E A B} (r : result E A) (k : A → result E B) : result E B :=
  match r with Ok a => k a | Raise e => Raise e end.

(** ** The file system

    A tree of regular files, directories and other entries (a socket stands
    for every entry that is neither).  A directory carries one permission
    flag: when it is off the directory can be neither listed nor searched.
    Links and the permission bits of a file are left out: a path names one
    node, and a regular file that [os.stat] finds can be opened. *)

#[warnings="-register-all"]
Inductive node : Type :=
  | File (data : list byte)
  | Dir (accessible : bool) (entries : gmap string node)
  | Socket.

Record FileSystem : Type := mkFS {
  root : node;
  cwd : list string   (* the working directory, as names from the root *)
}.

Module posixpath.

(** [s.split("/")] *)
Fixpoint split (s : string) : list string :=
  match s with
  | EmptyString => [""]
  | String c s' =>
      if Ascii.eqb c "/"%char then "" :: split s'
      else match split s' with
           | x :: xs => String c x :: xs
           | [] => [String c ""]
           end
  end.

Fixpoint has_sep (s : string) : bool :=
  match s with
  | EmptyString => false
  | String c s' => Ascii.eqb c "/"%char || has_sep s'
  end.

(** [s.startswith("/")], which is also [os.path.isabs]. *)
Definition startswith_sep (s : string) : bool :=
  match s with
  | String c _ => Ascii.eqb c "/"%char
  | EmptyString => false
  end.

(** [s.endswith("/")] *)
Fixpoint endswith_sep (s : string) : bool :=
  match s with
  | EmptyString => false
  | String c EmptyString => Ascii.eqb c "/"%char
  | String _ s' => endswith_sep s'
  end.

(** [os.path.join(a, b)]:
    if b.startswith(sep): path = b
    elif not path or path.endswith(sep): path += b
    else: path += sep + b *)
Definition join (a b : string) : string :=
  if startswith_sep b then b
  else if bool_decide (a = "") || endswith_sep a then a +:+ b
  else a +:+ "/" +:+ b.

(** One component of a path, against the names collected so far (last
    name first): empty components and [.] are dropped, [..] leaves the
    last directory.  This is the normalisation of [os.path.normpath]; the
    tree has no symbolic links. *)
Definition norm_step (stk : list string) (c : string) : list string :=
  if bool_decide (c = "" ∨ c = ".") then stk
  else if bool_decide (c = "..") then tail stk
  else c :: stk.

(** The names from the root that path [p] denotes in working directory [wd]. *)
Definition components (wd : list string) (p : string) : list string :=
  rev (foldl norm_step (if startswith_sep p then [] else rev wd) (split p)).

(** What a directory entry's name can be. *)
Definition valid_name (f : string) : Prop :=
  f ≠ "" ∧ f ≠ "." ∧ f ≠ ".." ∧ has_sep f = false.

#[global] Instance valid_name_dec f : Decision (valid_name f).
Proof. unfold valid_name. apply _. Defined.

End posixpath.

Module os.

(** One step down the tree. *)
Definition child (c : string) (n : node) : result errno node :=
  match n with
  | Dir acc es =>
      if acc then
        match es !! c with
        | Some m => Ok m
        | None => Raise ENOENT
        end
      else Raise EACCES
  | _ => Raise ENOTDIR
  end.

Fixpoint walk (cs : list string) (n : node) : result errno node :=
  match cs with
  | [] => Ok n
  | c :: cs' => res_bind (child c n) (walk cs')
  end.

(** [os.stat(p)]: the entry at [p], or the [OSError] for it. *)
Definition stat (fs : FileSystem) (p : string) : result exn node :=
  if bool_decide (p = "") then Raise (OSError ENOENT p)
  else match walk (posixpath.components (cwd fs) p) (root fs) with
       | Ok n => Ok n
       | Raise e => Raise (OSError e p)
       end.

(** [os.listdir(p)]: the names in the directory, in the order the system
    gives them. *)
Definition listdir (fs : FileSystem) (p : string) : result exn (list string) :=
  match stat fs p with
  | Ok (Dir acc es) =>
      if acc then Ok (map_to_list es).*1 else Raise (OSError EACCES p)
  | Ok _ => Raise (OSError ENOTDIR p)
  | Raise e => Raise e
  end.

Module path.

Definition join := posixpath.join.

(** [os.path.exists(p)]: [os.stat] succeeds. *)
Definition exists_ (fs : FileSystem) (p : string) : bool :=
  is_ok (stat fs p).

(** [os.path.isfile(p)]: [os.stat] succeeds and finds a regular file. *)
Definition isfile (fs : FileSystem) (p : string) : bool :=
  match stat fs p with
  | Ok (File _) => true
  | _ => false
  end.

End path.

(** The tree with the entry at [cs] replaced by a regular file holding
    [data], as [open(p, "wb")], [write] and [close] leave it. *)
Fixpoint store (cs : list string) (data : list byte) (n : node) : result errno node :=
  match n with
  | Dir acc es =>
      match cs with
      | [] => Raise EISDIR
      | c :: cs' =>
          if acc then
            match cs', es !! c with
            | [], Some (Dir _ _) => Raise EISDIR
            | [], Some Socket => Raise ENXIO
            | [], _ => Ok (Dir acc (<[c := File data]> es))
            | _, Some m =>
                res_bind (store cs' data m) (λ m', Ok (Dir acc (<[c := m']> es)))
            | _, None => Raise ENOENT
            end
          else Raise EACCES
      end
  | File _ | Socket => Raise ENOTDIR
  end.

Definition write_file (fs : FileSystem) (p : string) (data : list byte)
  : result exn FileSystem :=
  if bool_decide (p = "") then Raise (OSError ENOENT p)
  else match store (posixpath.components (cwd fs) p) data (root fs) with
       | Ok r => Ok (mkFS r (cwd fs))
       | Raise e => Raise (OSError e p)
       end.

(** [open(p, "rb").read()] *)
Definition read_file (fs : FileSystem) (p : string) : result exn (list byte) :=
  match stat fs p with
  | Ok (File data) => Ok data
  | Ok (Dir _ _) => Raise (OSError EISDIR p)
  | Ok Socket => Raise (OSError ENXIO p)
  | Raise e => Raise e
  end.

End os.

(** ** The world the cells run in *)

Record World : Type := mkWorld {
  fs : FileSystem;
  stdout : list string;                 (* lines printed or displayed *)
  parse_failures : list (string * exn)  (* failures reported by the parsing client, per file *)
}.

Definition with_fs (w : World) (f : FileSystem) : World :=
  mkWorld f (stdout w) (parse_failures w).

(** A cell is a state transformer that returns a value or raises; what it
    did to the world before raising stays done. *)
Definition M (A : Type) : Type := World → result exn A * World.

Definition ret {A} (a : A) : M A := λ w, (Ok a, w).

Definition bind {A B} (m : M A) (k : A → M B) : M B :=
  λ w, match m w with
       | (Ok a, w') => k a w'
       | (Raise e, w') => (Raise e, w')
       end.

Notation "'let*' x ':=' m 'in' k" := (bind m (λ x, k))
  (at level 10, x name, m at level 100, k at level 200).
Notation "m '>>' k" := (bind m (λ _, k))
  (at level 100, k at level 200, right associativity).

(** A call that only reads the file system. *)
Definition reading {A} (f : FileSystem → result exn A) : M A :=
  λ w, (f (fs w), w).

(** A call that may change the file system. *)
Definition writing {A} (f : FileSystem → result exn A * FileSystem) : M A :=
  λ w, let '(r, f') := f (fs w) in (r, with_fs w f').

(** A call that touches nothing of the world. *)
Definition calling {A} (r : result exn A) : M A := λ w, (r, w).

(** [print(line)] *)
Definition print (line : string) : M unit :=
  λ w, (Ok tt, mkWorld (fs w) (stdout w ++ [line]) (parse_failures w)).

(** ** Data model *)

(** A parsed document: where it came from, its text, its metadata. *)
Record Document : Type := mkDocument {
  id_ : string;
  text : string;
  metadata : gmap string string
}.

(** A retrieved fragment; [source_nodes[i].get_content()] reads its text. *)
Record NodeWithScore : Type := mkNode {
  get_content : string
}.

(** What [query_engine.query] returns: [str(response)] is the answer text,
    [response.source_nodes] the fragments behind it, best first. *)
Record Response : Type := mkResponse {
  response : string;
  source_nodes : list NodeWithScore
}.

(** The options the notebooks pass to [LlamaParse(...)]. *)
Record LlamaParse : Type := mkLlamaParse {
  result_type : string;
  parsing_instruction : option string;
  use_vendor_multimodal_model : bool;
  vendor_multimodal_model_name : option string;
  show_progress : bool
}.

(** [OpenAIEmbedding(model=..., api_key=...)] *)
Record OpenAIEmbedding : Type := mkOpenAIEmbedding {
  model : option string;
  api_key : option string
}.

(** [StorageContext.from_defaults(persist_dir=...)] *)
Record StorageContext : Type := mkStorageContext {
  persist_dir : string
}.

(** What [requests.get] returns, as far as the download cell reads it. *)
Record HttpResponse : Type := mkHttpResponse {
  status_code : Z;
  content : list byte
}.

(** ** The services behind the cells

    The hosted parser, the indexing library with its embedding model, its
    storage and its retrieval and answer generation, and the HTTP client.
    Each may raise.  Loading an index reads the file system and nothing
    else; persisting one may write to it. *)
Class Collaborators : Type := {
  Index : Type;
  (** the hosted parsing service, on one file's bytes *)
  ParseService_parse : LlamaParse → string → list byte → result exn string;
  (** [VectorStoreIndex(documents, embed_model=embed_model)] *)
  VectorStoreIndex : list Document → OpenAIEmbedding → result exn Index;
  (** [index.storage_context.persist(persist_dir=d)] *)
  persist : Index → string → FileSystem → result exn unit * FileSystem;
  (** [load_index_from_storage(ctx)] *)
  load_index_from_storage : StorageContext → FileSystem → result exn Index;
  (** the [k] fragments nearest to a question, best first *)
  retrieve : Index → nat → string → result exn (list NodeWithScore);
  (** the answer to a question from the fragments given *)
  synthesize : string → list NodeWithScore → result exn string;
  (** the library's [similarity_top_k] when the caller gives none *)
  DEFAULT_SIMILARITY_TOP_K : nat;
  (** [requests.get(url)] *)
  requests_get : string → result exn HttpResponse
}.

Section Notebooks.

Context `{C : Collaborators}.

(** *** The parsing client *)

(** What reading and parsing one file gives. *)
Definition parse_file (p : LlamaParse) (f : FileSystem) (file_path : string)
  : result exn string :=
  res_bind (os.read_file f file_path) (ParseService_parse p file_path).

(** Modelled from the spec: [LlamaParse.load_data] on one file.  The client's
    code is not among the sources; the specification has it produce one
    document per file, carrying the caller's metadata, and report a file
    that cannot be read or parsed as an error of that file, without
    stopping the batch. *)
Definition load_file (p : LlamaParse) (extra_info : gmap string string)
    (file_path : string) : M (list Document) :=
  λ w, match parse_file p (fs w) file_path with
       | Ok body => (Ok [mkDocument file_path body extra_info], w)
       | Raise e =>
           (Ok [], mkWorld (fs w) (stdout w) (parse_failures w ++ [(file_path, e)]))
       end.

(** Modelled from the spec: [LlamaParse.load_data] on a list of files, the
    documents in the order of the files. *)
Fixpoint load_data (p : LlamaParse) (files : list string)
    (extra_info : gmap string string) : M (list Document) :=
  match files with
  | [] => ret []
  | file_path :: rest =>
      let* docs := load_file p extra_info file_path in
      let* docs' := load_data p rest extra_info in
      ret (docs ++ docs')
  end.

(** The documents of the files that parse, in the order of the files. *)
Definition parsed (p : LlamaParse) (s : FileSystem) (info : gmap string string)
    (files : list string) : list Document :=
  omap (λ f, match parse_file p s f with
             | Ok body => Some (mkDocument f body info)
             | Raise _ => None
             end) files.

(** The files that do not, each with its error. *)
Definition failed (p : LlamaParse) (s : FileSystem) (files : list string)
  : list (string * exn) :=
  omap (λ f, match parse_file p s f with
             | Ok _ => None
             | Raise e => Some (f, e)
             end) files.

(** *** The legal-documents notebook *)

Definition parser : LlamaParse := {|
  result_type := "markdown";
  parsing_instruction := Some "Provided are a series of US legal documents.";
  use_vendor_multimodal_model := true;
  vendor_multimodal_model_name := Some "openai-gpt4o";
  show_progress := true
|}.

Definition DATA_DIR : string := "data".

(** The loop of [get_data_files]:
    for f in os.listdir(data_dir):
        fname = os.path.join(data_dir, f)
        if os.path.isfile(fname):
            files.append(fname) *)
Fixpoint get_data_files_loop (data_dir : string) (entries : list string)
    (files : list string) : M (list string) :=
  match entries with
  | [] => ret files
  | f :: rest =>
      let fname := os.path.join data_dir f in
      let* b := reading (λ s, Ok (os.path.isfile s fname)) in
      get_data_files_loop data_dir rest (if b : bool then files ++ [fname] else files)
  end.

Definition get_data_files (data_dir : string) : M (list string) :=
  let* entries := reading (λ s, os.listdir s data_dir) in
  get_data_files_loop data_dir entries [].

Definition extra_info : gmap string string :=
  {[ "name" := "US legal documents provided by the Library of Congress." ]}.

(** files = get_data_files(); documents = parser.load_data(files, extra_info=...) *)
Definition ingest (p : LlamaParse) (data_dir : string)
    (info : gmap string string) : M (list Document) :=
  let* files := get_data_files data_dir in
  load_data p files info.

Definition embed_model : OpenAIEmbedding :=
  mkOpenAIEmbedding (Some "text-embedding-3-large") None.

(** The build-or-load cell, with the path it tests and the directory it
    persists to and loads from as the cell writes them:
    if not os.path.exists(check_path):
        index = VectorStoreIndex(documents, embed_model=embed_model)
        index.storage_context.persist(persist_dir=dir)
    else:
        ctx = StorageContext.from_defaults(persist_dir=dir)
        index = load_index_from_storage(ctx) *)
Definition buildOrLoad (check_path dir : string) (documents : list Document)
    (em : OpenAIEmbedding) : M Index :=
  let* found := reading (λ s, Ok (os.path.exists_ s check_path)) in
  if negb found then
    let* index := calling (VectorStoreIndex documents em) in
    writing (persist index dir) >>
    ret index
  else
    let ctx := mkStorageContext dir in
    reading (load_index_from_storage ctx).

(** The cell as the notebook has it. *)
Definition index_cell (documents : list Document) : M Index :=
  buildOrLoad "storage_legal" "./storage_legal" documents embed_model.

(** *** The query engine *)

Record QueryEngine : Type := mkQueryEngine {
  engine_index : Index;
  similarity_top_k : nat
}.

(** [index.as_query_engine()] and [index.as_query_engine(similarity_top_k=k)] *)
Definition as_query_engine (index : Index) (k : option nat) : QueryEngine :=
  mkQueryEngine index (default DEFAULT_SIMILARITY_TOP_K k).

(** Modelled from the spec: [query_engine.query(question)].  The engine is
    the indexing library's; the specification has it retrieve the K
    fragments nearest to the question and generate the answer from them,
    and return the answer together with those fragments. *)
Definition query (qe : QueryEngine) (question : string) : M Response :=
  let* nodes := calling (retrieve (engine_index qe) (similarity_top_k qe) question) in
  let* answer := calling (synthesize question nodes) in
  ret (mkResponse answer nodes).

(** response = query_engine.query(question); display(Markdown(str(response))) *)
Definition query_cell (qe : QueryEngine) (question : string) : M Response :=
  let* r := query qe question in
  print (response r) >>
  ret r.

(** The questions of the notebook's query cells, in order. *)
Definition questions : list string := [
  "Where did the majority of Barre Savings Bank's loans go?";
  "Why does Mr. Kubarych believe foreign markets are so important?";
  "Who is against the proposal of offshore drilling in CA and why?";
  "What is the purpose of the Ocean Science and Technology Subcommittee?";
  "Why is the immigration appeal dismissed?";
  "What is an advance pricing agreement?"
].

Fixpoint query_cells (qe : QueryEngine) (qs : list string) : M (list Response) :=
  match qs with
  | [] => ret []
  | q :: rest =>
      let* r := query_cell qe q in
      let* rs := query_cells qe rest in
      ret (r :: rs)
  end.

(** The legal-documents notebook, from the listing of the data directory
    to its last query. *)
Definition legal_rag : M (list Response) :=
  let* documents := ingest parser DATA_DIR extra_info in
  let* index := index_cell documents in
  let query_engine := as_query_engine index None in
  query_cells query_engine questions.

(** *** The AstraDB notebook *)

Definition url : string := "https://arxiv.org/pdf/1706.03762.pdf".
Definition file_path : string := "./attention.pdf".

(** response = requests.get(url)
    if response.status_code == 200:
        with open(file_path, "wb") as file:
            file.write(response.content)
        print("Download complete.")
    else:
        print("Error downloading the file.") *)
Definition download_cell : M unit :=
  let* resp := calling (requests_get url) in
  if (status_code resp =? 200)%Z then
    writing (λ s, match os.write_file s file_path (content resp) with
                  | Ok s' => (Ok tt, s')
                  | Raise e => (Raise e, s)
                  end) >>
    print "Download complete."
  else
    print "Error downloading the file.".

(** documents = LlamaParse(result_type="text").load_data(file_path) *)
Definition parse_cell : M (list Document) :=
  load_data (mkLlamaParse "text" None false None false) [file_path] ∅.

(** The AstraDB notebook up to the parsed documents. *)
Definition demo_astradb : M (list Document) :=
  download_cell >>
  parse_cell.

(** query_engine = index.as_query_engine(similarity_top_k=15)
    response_1 = query_engine.query(query)
    print(...); print(response_1) *)
Definition astra_query_cell (index : Index) : M Response :=
  let query_engine := as_query_engine index (Some 15) in
  let* response_1 :=
    query query_engine "What is Multi-Head Attention also known as?" in
  print "" >>
  print "***********New LlamaParse+ Basic Query Engine***********" >>
  print (response response_1) >>
  ret response_1.

(** response_1.source_nodes[0].get_content() *)
Definition first_source_content (r : Response) : result exn string :=
  match source_nodes r with
  | n :: _ => Ok (get_content n)
  | [] => Raise (Exception "IndexError" "list index out of range")
  end.

End Notebooks.

(** ** What the pipeline expects of the index storage

    An index persisted to a directory is there afterwards, and loading from
    that directory gives the index back. *)
Definition storage_contract (C : Collaborators) : Prop :=
  ∀ (index : Index) (dir : string) (s s' : FileSystem),
    persist index dir s = (Ok tt, s') →
    os.path.exists_ s' dir = true ∧
    load_index_from_storage (mkStorageContext dir) s' = Ok index.

(** Two spellings of one place, whatever the working directory. *)
Definition same_place (a b : string) : Prop :=
  (a = "" ↔ b = "") ∧
  ∀ wd, posixpath.components wd a = posixpath.components wd b.

(** The error the specification asks of a corrupt snapshot: an exception of
    a class of its own. *)
Definition is_corrupt_index_error (e : exn) : bool :=
  match e with
  | Exception cls _ => bool_decide (cls = "CorruptIndexError")
  | OSError _ _ => false
  end.

(** ** The regular files of a directory *)

Definition is_File (n : node) : bool :=
  match n with File _ => true | _ => false end.

(** The names of the regular files among the entries, in listing order. *)
Definition regular_files (es : gmap string node) : list string :=
  (filter (λ kv, is_File kv.2 = true) (map_to_list es)).*1.

(** The entries that are regular files. *)
Definition regular_entries (es : gmap string node) : gmap string node :=
  filter (λ kv, is_File kv.2 = true) es.

(** Every name in the directory is one a directory entry can have. *)
Definition valid_entries (es : gmap string node) : Prop :=
  map_Forall (λ f _, posixpath.valid_name f) es.

#[global] Instance valid_entries_dec es : Decision (valid_entries es).
Proof. unfold valid_entries. apply _. Defined.

(** ** A small stand-in for the services

    It parses what begins with the PDF magic number, keeps an index as the
    number of its documents, and persists it as one JSON-like text
    ([{dd...d}], one [d] per document) at the path it is given. *)
Module double.

Definition parse (p : LlamaParse) (name : string) (data : list byte)
  : result exn string :=
  match data with
  | b1 :: b2 :: b3 :: b4 :: rest =>
      if Byte.eqb b1 "%" && Byte.eqb b2 "P" && Byte.eqb b3 "D" && Byte.eqb b4 "F"
      then Ok (String.string_of_list_byte rest)
      else Raise (Exception "ParseError" name)
  | _ => Raise (Exception "ParseError" name)
  end.

Definition encode (n : nat) : list byte :=
  ("{"%byte :: repeat "d"%byte n) ++ ["}"%byte].

Fixpoint decode_body (bs : list byte) : option nat :=
  match bs with
  | [] => None
  | b :: bs' =>
      if Byte.eqb b "}" then (match bs' with [] => Some 0 | _ => None end)
      else if Byte.eqb b "d" then S <$> decode_body bs'
      else None
  end.

Definition decode (bs : list byte) : option nat :=
  match bs with
  | b :: bs' => if Byte.eqb b "{" then decode_body bs' else None
  | [] => None
  end.

Definition persist_text (index : nat) (dir : string) (s : FileSystem)
  : result exn unit * FileSystem :=
  match os.write_file s dir (encode index) with
  | Ok s' => (Ok tt, s')
  | Raise e => (Raise e, s)
  end.

Definition load_text (ctx : StorageContext) (s : FileSystem) : result exn nat :=
  match os.read_file s (persist_dir ctx) with
  | Ok bs =>
      match decode bs with
      | Some n => Ok n
      | None => Raise (Exception "JSONDecodeError" (persist_dir ctx))
      end
  | Raise e => Raise e
  end.

Definition nearest (index k : nat) (question : string)
  : result exn (list NodeWithScore) :=
  Ok (take k (repeat (mkNode question) index)).

Definition answer (question : string) (nodes : list NodeWithScore)
  : result exn string :=
  Ok (String.concat " " (get_content <$> nodes)).

Definition services : Collaborators := {|
  Index := nat;
  ParseService_parse := parse;
  VectorStoreIndex := λ documents _, Ok (length documents);
  persist := persist_text;
  load_index_from_storage := load_text;
  retrieve := nearest;
  synthesize := answer;
  DEFAULT_SIMILARITY_TOP_K := 2;
  requests_get := λ _, Ok (mkHttpResponse 404 [])
|}.

(** The index of [n] documents. *)
Definition index_of (n : nat) : @Index services := n.

(** A working directory [/home] holding [data]: in one world with a PDF, a
    subdirectory with a PDF of its own, and a socket; in another with a PDF
    and a file that is not one. *)
Definition good_pdf : list byte := ["%"; "P"; "D"; "F"; "o"; "k"]%byte.
Definition bad_pdf : list byte := ["n"; "o"]%byte.

Definition data_entries : gmap string node :=
  <["a.pdf" := File good_pdf]>
  (<["old" := Dir true {[ "b.pdf" := File good_pdf ]}]>
  (<["sock" := Socket]> ∅)).


Definition home (entries : gmap string node) : FileSystem :=
  mkFS (Dir true {[ "home" := Dir true entries ]}) ["home"].

Definition world (entries : gmap string node) : World :=
  mkWorld (home entries) [] [].

(** [data] with only parsable files, [data] with one that is not, no
    [data] at all, an empty [data], and a persisted snapshot cut short. *)
Definition w_good : World := world {[ "data" := Dir true data_entries ]}.
Definition w_none : World := world ∅.
Definition w_empty : World := world {[ "data" := Dir true ∅ ]}.
Definition w_truncated : World :=
  world {[ "storage_legal" := File ["{"; "d"; "d"]%byte ]}.

End double.

(** ** The cells around the pipeline *)

(** *** Credentials

    What the credential cells write to: [os.environ] and the [api_key]
    attribute of the [openai] module. *)
Record Process : Type := mkProcess {
  environ : gmap string string;
  openai_api_key : option string
}.

(** The legal-documents notebook:
    os.environ["OPENAI_API_KEY"] = "<Your OpenAI API Key>"
    os.environ["LLAMA_CLOUD_API_KEY"] = "<Your LlamaCloud API Key>" *)
Definition setup_cell (p : Process) : Process :=
  mkProcess
    (<["LLAMA_CLOUD_API_KEY" := "<Your LlamaCloud API Key>"]>
       (<["OPENAI_API_KEY" := "<Your OpenAI API Key>"]> (environ p)))
    (openai_api_key p).

(** What the user types at the five prompts of the AstraDB notebook, in the
    order of the prompts. *)
Record Typed : Type := mkTyped {
  typed_llama_cloud_api_key : string;
  typed_api_endpoint : string;
  typed_token : string;
  typed_namespace : string;
  typed_openai_api_key : string
}.

(** The variables the configuration cell binds. *)
Record AstraSettings : Type := mkAstraSettings {
  llama_cloud_api_key : string;
  api_endpoint : string;
  token : string;
  namespace : option string;
  openai_key : string
}.

(** [s or None]: the empty string is falsy. *)
Definition or_None (s : string) : option string :=
  if bool_decide (s = "") then None else Some s.

(** llama_cloud_api_key = getpass(...)
    api_endpoint = input(...)
    token = getpass(...)
    namespace = (input(...) or None)
    openai_api_key = getpass(...)
    os.environ["LLAMA_CLOUD_API_KEY"] = llama_cloud_api_key
    openai.api_key = openai_api_key *)
Definition configuration_cell (t : Typed) (p : Process) : AstraSettings * Process :=
  let llama_cloud_api_key := typed_llama_cloud_api_key t in
  let api_endpoint := typed_api_endpoint t in
  let token := typed_token t in
  let namespace := or_None (typed_namespace t) in
  let openai_api_key := typed_openai_api_key t in
  (mkAstraSettings llama_cloud_api_key api_endpoint token namespace openai_api_key,
   mkProcess (<["LLAMA_CLOUD_API_KEY" := llama_cloud_api_key]> (environ p))
     (Some openai_api_key)).

(** [OpenAIEmbedding(api_key=openai_api_key)], as the AstraDB notebook builds
    its embedding model. *)
Definition astra_embed_model (c : AstraSettings) : OpenAIEmbedding :=
  mkOpenAIEmbedding None (Some (openai_key c)).

(** *** A look at the parsed text *)

(** A Python string is held as its UTF-8 bytes: a character is a byte that
    is no continuation byte (10xxxxxx) with the continuation bytes that
    follow it, and a string begins with no continuation byte. *)
Definition is_continuation (c : ascii) : bool :=
  match c with
  | Ascii _ _ _ _ _ _ b6 b7 => b7 && negb b6
  end.

Definition begins_inside_character (s : string) : bool :=
  match s with
  | String c _ => is_continuation c
  | EmptyString => false
  end.

(** [len(s)] *)
Fixpoint len (s : string) : nat :=
  match s with
  | EmptyString => 0
  | String c s' => (if is_continuation c then 0 else 1) + len s'
  end.

(** The continuation bytes a string begins with, and the rest. *)
Fixpoint take_continuation (s : string) : string :=
  match s with
  | String c s' => if is_continuation c then String c (take_continuation s') else EmptyString
  | EmptyString => EmptyString
  end.

Fixpoint skip_continuation (s : string) : string :=
  match s with
  | String c s' => if is_continuation c then skip_continuation s' else s
  | EmptyString => EmptyString
  end.

(** [s[n:]] and [s[:n]], by characters. *)
Fixpoint drop_chars (n : nat) (s : string) : string :=
  match n, s with
  | 0, _ => s
  | S n', String _ s' => drop_chars n' (skip_continuation s')
  | S _, EmptyString => EmptyString
  end.

Fixpoint take_chars (n : nat) (s : string) : string :=
  match n, s with
  | S n', String c s' =>
      String c (take_continuation s' +:+ take_chars n' (skip_continuation s'))
  | _, _ => EmptyString
  end.

(** [s[start:stop]] for indices that are not negative. *)
Definition slice (s : string) (start stop : nat) : string :=
  take_chars (stop - start) (drop_chars start s).

(** [documents[0].get_content()[start:stop]] *)
Definition peek (documents : list Document) (start stop : nat) : result exn string :=
  match documents with
  | d :: _ => Ok (slice (text d) start stop)
  | [] => Raise (Exception "IndexError" "list index out of range")
  end.

(** documents[0].get_content()[10000:11000] *)
#[warnings="-abstract-large-number"]
Definition peek_cell (documents : list Document) : result exn string :=
  peek documents 10000 11000.

(** *** What a path holds *)

(** The bytes of the regular file at a path, if there is one. *)
Definition file_at (s : FileSystem) (p : string) : option (list byte) :=
  match os.stat s p with
  | Ok (File data) => Some data
  | _ => None
  end.

(** ** Two more stand-ins

    One whose download succeeds, and one whose store is interrupted while
    it persists: it leaves the snapshot without its last byte and raises. *)
Module online.

Definition body : list byte := ["%"; "P"; "D"; "F"; "h"; "i"]%byte.

Definition services : Collaborators := {|
  Index := nat;
  ParseService_parse := double.parse;
  VectorStoreIndex := λ documents _, Ok (length documents);
  persist := double.persist_text;
  load_index_from_storage := double.load_text;
  retrieve := double.nearest;
  synthesize := double.answer;
  DEFAULT_SIMILARITY_TOP_K := 2;
  requests_get := λ _, Ok (mkHttpResponse 200 body)
|}.

(** A working directory where [attention.pdf] is a directory. *)
Definition w_blocked : World :=
  double.world {[ "attention.pdf" := Dir true ∅ ]}.

(** A working directory with an older [attention.pdf] and another file. *)
Definition w_older : World :=
  double.world (<["attention.pdf" := File double.bad_pdf]>
                  {[ "notes.txt" := File double.bad_pdf ]}).

End online.

Module flaky.

Definition persist_cut (index : nat) (dir : string) (s : FileSystem)
  : result exn unit * FileSystem :=
  match os.write_file s dir (removelast (double.encode index)) with
  | Ok s' => (Raise (Exception "OSError" "No space left on device"), s')
  | Raise e => (Raise e, s)
  end.

Definition services : Collaborators := {|
  Index := nat;
  ParseService_parse := double.parse;
  VectorStoreIndex := λ documents _, Ok (length documents);
  persist := persist_cut;
  load_index_from_storage := double.load_text;
  retrieve := double.nearest;
  synthesize := double.answer;
  DEFAULT_SIMILARITY_TOP_K := 2;
  requests_get := λ _, Ok (mkHttpResponse 404 [])
|}.

End flaky.

(** ** Paths *)

Section PathFacts.

Import posixpath.

Lemma append_nil b : "" +:+ b = b.
Proof. reflexivity. Qed.

Lemma append_cons c a b : String c a +:+ b = String c (a +:+ b).
Proof. reflexivity. Qed.

Lemma split_not_nil s : split s ≠ [].
Proof.
  destruct s as [|c s]; simpl; [done|].
  destruct (Ascii.eqb c "/"); [done|]. by destruct (split s).
Qed.

Lemma split_app_sep a b : split (a +:+ String "/" b) = (split a ++ split b).
Proof.
  induction a as [|c a IH]; [done|].
  rewrite append_cons. simpl.
  destruct (Ascii.eqb c "/"); [by rewrite IH|].
  rewrite IH. destruct (split a) as [|x xs] eqn:E; [|done].
  by apply split_not_nil in E.
Qed.

Lemma split_plain f : has_sep f = false → split f = [f].
Proof.
  induction f as [|c f IH]; simpl; [done|].
  intros [Hc Hf]%orb_false_elim. rewrite Hc, (IH Hf). done.
Qed.

Lemma endswith_sep_inv a : endswith_sep a = true → ∃ a', a = a' +:+ "/".
Proof.
  induction a as [|c a IH]; [done|].
  destruct a as [|c' a].
  - simpl. intros ->%Ascii.eqb_eq. by exists "".
  - intros H. destruct (IH H) as [a' ->]. by exists (String c a').
Qed.

Lemma startswith_sep_app a b : a ≠ "" → startswith_sep (a +:+ b) = startswith_sep a.
Proof. by destruct a. Qed.

Lemma valid_name_plain f : valid_name f → startswith_sep f = false ∧ split f = [f].
Proof.
  intros (Hne & _ & _ & Hsep). split; [|by apply split_plain].
  destruct f as [|c f]; [done|]. simpl in *. by apply orb_false_elim in Hsep as [-> _].
Qed.

Lemma norm_step_name stk f : valid_name f → norm_step stk f = f :: stk.
Proof.
  intros (H1 & H2 & H3 & _). unfold norm_step.
  rewrite bool_decide_eq_false_2 by (intros [?|?]; done).
  by rewrite bool_decide_eq_false_2.
Qed.

Lemma append_sep_assoc a b : (a +:+ "/") +:+ b = a +:+ String "/" b.
Proof.
  induction a as [|c a IH]; [done|].
  by rewrite !append_cons, IH.
Qed.

Lemma foldl_norm_step_name stk cs f :
  valid_name f →
  foldl norm_step stk (cs ++ [f]) = f :: foldl norm_step stk cs.
Proof. intros Hf. by rewrite foldl_app; simpl; rewrite norm_step_name. Qed.

(** Joining a directory and one of its entries' names goes one step down. *)
Lemma components_join wd D f :
  D ≠ "" → valid_name f →
  components wd (join D f) = (components wd D ++ [f]).
Proof.
  intros HD Hf. destruct (valid_name_plain f Hf) as [Hs Hsplit].
  unfold join. rewrite Hs, (bool_decide_eq_false_2 _ HD). simpl.
  destruct (endswith_sep D) eqn:HE; unfold components.
  - rewrite (startswith_sep_app D f HD).
    destruct (endswith_sep_inv D HE) as [D' ->].
    rewrite append_sep_assoc, !split_app_sep, Hsplit.
    rewrite foldl_norm_step_name by done.
    rewrite foldl_app. simpl. done.
  - rewrite (startswith_sep_app D _ HD).
    change ("/" +:+ f) with (String "/" f).
    rewrite split_app_sep, Hsplit.
    by rewrite foldl_norm_step_name.
Qed.

(** A leading [./] changes nothing. *)
Lemma components_dot_slash wd p :
  startswith_sep p = false → components wd ("./" +:+ p) = components wd p.
Proof.
  intros Hp. unfold components.
  change ("./" +:+ p) with (String "." (String "/" p)).
  change (String "." (String "/" p)) with ("." +:+ String "/" p).
  rewrite split_app_sep. simpl. by rewrite Hp.
Qed.

Lemma same_place_dot_slash p :
  startswith_sep p = false → p ≠ "" → same_place p ("./" +:+ p).
Proof.
  intros Hp Hne. split; [split; [done|by destruct p]|].
  intros wd. by rewrite components_dot_slash.
Qed.

End PathFacts.

(** ** The file system *)

Section FileSystemFacts.

Lemma walk_app cs cs' n :
  os.walk (cs ++ cs') n = res_bind (os.walk cs n) (os.walk cs').
Proof.
  revert n. induction cs as [|c cs IH]; intros n; simpl; [done|].
  destruct (os.child c n); simpl; [apply IH|done].
Qed.

Lemma stat_not_empty s p n : os.stat s p = Ok n → p ≠ "".
Proof. unfold os.stat. case_bool_decide; [done|]. by intros _. Qed.

Lemma stat_walk s p n :
  os.stat s p = Ok n → os.walk (posixpath.components (cwd s) p) (root s) = Ok n.
Proof.
  unfold os.stat. case_bool_decide; [done|].
  destruct (os.walk _ _); naive_solver.
Qed.

Lemma join_not_empty D f : D ≠ "" → os.path.join D f ≠ "".
Proof.
  intros HD. unfold os.path.join, posixpath.join.
  destruct (posixpath.startswith_sep f) eqn:Hf; [by destruct f|].
  destruct (_ || _); by destruct D.
Qed.

(** An entry of a directory, reached through the joined path. *)
Lemma stat_join s D es f :
  os.stat s D = Ok (Dir true es) → posixpath.valid_name f →
  os.stat s (os.path.join D f) =
    match es !! f with
    | Some n => Ok n
    | None => Raise (OSError ENOENT (os.path.join D f))
    end.
Proof.
  intros HD Hf. pose proof (stat_not_empty _ _ _ HD) as Hne.
  pose proof (stat_walk _ _ _ HD) as Hw.
  unfold os.stat. rewrite (bool_decide_eq_false_2 _ (join_not_empty D f Hne)).
  unfold os.path.join. rewrite components_join, walk_app, Hw by done.
  simpl. by destruct (es !! f).
Qed.

Lemma isfile_join s D es f :
  os.stat s D = Ok (Dir true es) → posixpath.valid_name f →
  os.path.isfile s (os.path.join D f) =
    match es !! f with Some n => is_File n | None => false end.
Proof.
  intros HD Hf. unfold os.path.isfile. rewrite (stat_join s D es f HD Hf).
  destruct (es !! f) as [[]|]; done.
Qed.

Lemma exists_same_place s a b :
  same_place a b → os.path.exists_ s a = os.path.exists_ s b.
Proof.
  intros [Hne Hc]. unfold os.path.exists_, os.stat. rewrite (Hc (cwd s)).
  do 2 case_bool_decide; try done; try (exfalso; tauto).
  by destruct (os.walk _ _).
Qed.

(** What was stored is what is found. *)
Lemma walk_store cs data n n' :
  os.store cs data n = Ok n' → os.walk cs n' = Ok (File data).
Proof.
  revert n n'. induction cs as [|c cs IH]; intros n n'.
  - destruct n; done.
  - destruct n as [|acc es|]; [done| |done]. simpl.
    destruct acc; [|done].
    destruct cs as [|c' cs].
    + destruct (es !! c) as [[]|]; intros [= <-]; simpl;
        by rewrite lookup_insert_eq.
    + destruct (es !! c) as [m|]; [|done].
      destruct (os.store (c' :: cs) data m) as [m'|] eqn:Hm; [|done].
      intros [= <-]. cbn [os.walk os.child res_bind].
      rewrite lookup_insert_eq. by apply (IH m).
Qed.

Lemma stat_write_file s p data s' :
  os.write_file s p data = Ok s' → os.stat s' p = Ok (File data).
Proof.
  unfold os.write_file, os.stat. case_bool_decide; [done|].
  destruct (os.store _ _ _) as [r|] eqn:Hs; [|done].
  intros [= <-]. simpl. by rewrite (walk_store _ _ _ _ Hs).
Qed.

End FileSystemFacts.

(** ** Listing the data directory *)

Section DataFiles.

Lemma get_data_files_loop_spec w D es (l : list (string * node)) files :
  os.stat (fs w) D = Ok (Dir true es) →
  (∀ f n, (f, n) ∈ l → es !! f = Some n ∧ posixpath.valid_name f) →
  get_data_files_loop D l.*1 files w =
    (Ok (files ++ (os.path.join D <$> (filter (λ kv, is_File kv.2 = true) l).*1)), w).
Proof.
  intros HD. revert files.
  induction l as [|[f n] l IH]; intros files Hl; simpl.
  - by rewrite app_nil_r.
  - destruct (Hl f n) as [Hf Hv]; [left|].
    unfold bind, reading at 1; simpl.
    rewrite (isfile_join _ _ _ _ HD Hv), Hf.
    rewrite IH by (intros ???; apply Hl; by right).
    rewrite filter_cons. simpl.
    destruct (is_File n) eqn:Hn.
    + rewrite decide_True by done. simpl. by rewrite <- app_assoc.
    + by rewrite decide_False by done.
Qed.

(** [get_data_files] on a directory that can be listed: the joined paths of
    its regular files, in listing order. *)
Lemma get_data_files_spec w D es :
  os.stat (fs w) D = Ok (Dir true es) → valid_entries es →
  get_data_files D w = (Ok (os.path.join D <$> regular_files es), w).
Proof.
  intros HD Hv. unfold get_data_files, bind, reading at 1, os.listdir.
  rewrite HD. apply (get_data_files_loop_spec w D es (map_to_list es) []); [done|].
  intros f n Hfn%elem_of_map_to_list. eauto.
Qed.

(** [get_data_files] on anything else raises what [os.listdir] raises. *)
Lemma get_data_files_raises w D e :
  os.listdir (fs w) D = Raise e → get_data_files D w = (Raise e, w).
Proof. intros H. unfold get_data_files, bind, reading. by rewrite H. Qed.

Lemma map_to_list_regular_entries es :
  map_to_list (regular_entries es) ≡ₚ
  filter (λ kv, is_File kv.2 = true) (map_to_list es).
Proof.
  apply NoDup_Permutation.
  - apply NoDup_map_to_list.
  - apply NoDup_filter, NoDup_map_to_list.
  - intros [f n]. unfold regular_entries.
    rewrite elem_of_map_to_list, map_lookup_filter_Some.
    rewrite list_elem_of_filter, elem_of_map_to_list. simpl. tauto.
Qed.

(** As many names as the directory has regular files. *)
Lemma length_regular_files es :
  length (regular_files es) = size (regular_entries es).
Proof.
  unfold regular_files. rewrite length_fmap.
  rewrite <- (Permutation_length (map_to_list_regular_entries es)).
  apply length_map_to_list.
Qed.

Lemma elem_of_regular_files es f :
  f ∈ regular_files es ↔ ∃ data, es !! f = Some (File data).
Proof.
  unfold regular_files. rewrite list_elem_of_fmap. split.
  - intros ([f' n] & -> & [Hn Hin%elem_of_map_to_list]%list_elem_of_filter).
    simpl in *. destruct n; try done. eauto.
  - intros [data H]. exists (f, File data). split; [done|].
    apply list_elem_of_filter. split; [done|]. by apply elem_of_map_to_list.
Qed.

Lemma NoDup_regular_files es : NoDup (regular_files es).
Proof.
  unfold regular_files.
  eapply NoDup_fmap_fst.
  - intros f n1 n2 [_ H1%elem_of_map_to_list]%list_elem_of_filter
      [_ H2%elem_of_map_to_list]%list_elem_of_filter. congruence.
  - apply NoDup_filter, NoDup_map_to_list.
Qed.

End DataFiles.

(** ** The stand-in honours the storage contract *)

Section Double.

Lemma decode_body_encode n :
  double.decode_body (repeat "d"%byte n ++ ["}"%byte]) = Some n.
Proof. induction n as [|n IH]; simpl; [done|]. by rewrite IH. Qed.

Lemma decode_encode n : double.decode (double.encode n) = Some n.
Proof. apply decode_body_encode. Qed.

Lemma double_storage_contract : storage_contract double.services.
Proof.
  intros index dir s s'. simpl. unfold double.persist_text.
  destruct (os.write_file s dir (double.encode index)) as [s1|] eqn:Hw; [|done].
  intros [= <-]. apply stat_write_file in Hw.
  unfold os.path.exists_, double.load_text, os.read_file. simpl.
  by rewrite Hw, decode_encode.
Qed.

Lemma storage_legal_same_place : same_place "storage_legal" "./storage_legal".
Proof. by apply (same_place_dot_slash "storage_legal"). Qed.

End Double.

(** ** The parsing client *)

Section Parsing.

Context `{C : Collaborators}.

Lemma load_data_spec p files info w :
  load_data p files info w =
    (Ok (parsed p (fs w) info files),
     mkWorld (fs w) (stdout w) (parse_failures w ++ failed p (fs w) files)).
Proof.
  revert w. induction files as [|f files IH]; intros w.
  - simpl. unfold ret, failed. simpl. rewrite app_nil_r. by destruct w.
  - cbn [load_data]. unfold bind at 1, load_file, parsed, failed.
    cbn [omap list_omap].
    destruct (parse_file p (fs w) f) as [body|e]; unfold bind; rewrite IH; simpl.
    + done.
    + by rewrite <- app_assoc.
Qed.



Lemma parsed_metadata p s info files :
  Forall (λ d, metadata d = info) (parsed p s info files).
Proof.
  induction files as [|f files IH]; simpl; [done|].
  destruct (parse_file p s f); [by constructor|done].
Qed.

Lemma elem_of_parsed p s info files d :
  d ∈ parsed p s info files ↔
  ∃ f body, f ∈ files ∧ parse_file p s f = Ok body ∧ d = mkDocument f body info.
Proof.
  unfold parsed. rewrite list_elem_of_omap. split.
  - intros (f & Hf & Hd). destruct (parse_file p s f) as [body|] eqn:E; [|done].
    injection Hd as <-. eauto.
  - intros (f & body & Hf & E & ->). exists f. by rewrite E.
Qed.

Lemma elem_of_failed p s files f e :
  (f, e) ∈ failed p s files ↔ f ∈ files ∧ parse_file p s f = Raise e.
Proof.
  unfold failed. rewrite list_elem_of_omap. split.
  - intros (f' & Hf & Hd). destruct (parse_file p s f') as [|e'] eqn:E; [done|].
    by injection Hd as -> ->.
  - intros [Hf E]. exists f. by rewrite E.
Qed.

End Parsing.

(** ** The build-or-load cell *)

Section BuildOrLoad.

Context `{C : Collaborators}.

Lemma buildOrLoad_found check_path dir documents em w :
  os.path.exists_ (fs w) check_path = true →
  buildOrLoad check_path dir documents em w =
    (load_index_from_storage (mkStorageContext dir) (fs w), w).
Proof.
  intros H. unfold buildOrLoad, bind, reading. simpl. rewrite H. simpl.
  by destruct (load_index_from_storage _ _).
Qed.

Lemma buildOrLoad_missing check_path dir documents em w :
  os.path.exists_ (fs w) check_path = false →
  buildOrLoad check_path dir documents em w =
    match VectorStoreIndex documents em with
    | Raise e => (Raise e, w)
    | Ok index =>
        match persist index dir (fs w) with
        | (Ok _, s') => (Ok index, with_fs w s')
        | (Raise e, s') => (Raise e, with_fs w s')
        end
    end.
Proof.
  intros H. unfold buildOrLoad, bind, reading, calling, writing. simpl.
  rewrite H. simpl. destruct (VectorStoreIndex documents em) as [index|]; [|done].
  by destruct (persist index dir (fs w)) as [[[]|] s'].
Qed.

(** C1.  The cell branches on the existence of the persisted path and on
    nothing else: when the path exists the outcome is the loader's, whatever
    the documents and the embedding model are; when it does not, the index
    is built from the documents and then persisted. *)
Theorem buildOrLoad_switches_on_existence check_path dir documents em w :
  buildOrLoad check_path dir documents em w =
    (if os.path.exists_ (fs w) check_path
     then (load_index_from_storage (mkStorageContext dir) (fs w), w)
     else match VectorStoreIndex documents em with
          | Raise e => (Raise e, w)
          | Ok index =>
              match persist index dir (fs w) with
              | (Ok _, s') => (Ok index, with_fs w s')
              | (Raise e, s') => (Raise e, with_fs w s')
              end
          end)
  ∧ (if os.path.exists_ (fs w) check_path
     then ∀ documents' em',
       buildOrLoad check_path dir documents' em' w =
       buildOrLoad check_path dir documents em w
     else True).
Proof.
  destruct (os.path.exists_ (fs w) check_path) eqn:H.
  - split; [by apply buildOrLoad_found|].
    intros documents' em'. by rewrite !buildOrLoad_found.
  - split; [by apply buildOrLoad_missing|done].
Qed.

Lemma buildOrLoad_built check_path dir documents em w index w' :
  os.path.exists_ (fs w) check_path = false →
  buildOrLoad check_path dir documents em w = (Ok index, w') ↔
  VectorStoreIndex documents em = Ok index ∧
  ∃ s', persist index dir (fs w) = (Ok tt, s') ∧ w' = with_fs w s'.
Proof.
  intros H. rewrite (buildOrLoad_missing _ _ _ _ _ H). split.
  - destruct (VectorStoreIndex documents em) as [i|]; [|done].
    destruct (persist i dir (fs w)) as [[[]|] s'] eqn:Hp; [|done].
    intros [= -> <-]. eauto.
  - intros [-> (s' & -> & ->)]. done.
Qed.

(** What the cell passes on of the library's storage contract (an assumption
    on the library, which the notebook cannot check): on a path that does
    not exist the cell returns exactly when the index is built from the
    documents with the embedding model and then persisted to the directory;
    and if persisting keeps the contract, the path exists afterwards and
    loading from the directory gives that index. *)
Theorem buildOrLoad_persists_loadable_snapshot check_path dir documents em w :
  storage_contract C →
  same_place check_path dir →
  os.path.exists_ (fs w) check_path = false →
  (∀ index w',
     buildOrLoad check_path dir documents em w = (Ok index, w') ↔
     VectorStoreIndex documents em = Ok index ∧
     ∃ s', persist index dir (fs w) = (Ok tt, s') ∧ w' = with_fs w s') ∧
  (∀ index w',
     buildOrLoad check_path dir documents em w = (Ok index, w') →
     os.path.exists_ (fs w') check_path = true ∧
     load_index_from_storage (mkStorageContext dir) (fs w') = Ok index).
Proof.
  intros Hc Hp H. split.
  - intros index w'. by apply buildOrLoad_built.
  - intros index w' (_ & s' & Hs & ->)%buildOrLoad_built; [|done].
    destruct (Hc _ _ _ _ Hs) as [He Hl]. simpl.
    by rewrite (exists_same_place _ _ _ Hp).
Qed.

(** C4, as the cell has it.  On a path that exists the cell adds nothing to
    what the loader does: an exception of the loader comes out unchanged and
    the world is untouched; and an index comes out only when the loader
    returned it. *)
Theorem buildOrLoad_relays_loader check_path dir documents em w :
  os.path.exists_ (fs w) check_path = true →
  (∀ e, load_index_from_storage (mkStorageContext dir) (fs w) = Raise e →
        buildOrLoad check_path dir documents em w = (Raise e, w)) ∧
  (∀ index w', buildOrLoad check_path dir documents em w = (Ok index, w') →
        load_index_from_storage (mkStorageContext dir) (fs w) = Ok index ∧ w' = w).
Proof.
  intros H. rewrite (buildOrLoad_found _ _ _ _ _ H). split.
  - by intros e ->.
  - by intros index w' [= -> <-].
Qed.

(** If persisting keeps the storage contract (again an assumption on the
    library), a second run of the cell, on the world the first run left,
    returns the index the first run returned and changes nothing, whatever
    documents it is given. *)
Theorem buildOrLoad_idempotent check_path dir documents em w index w1 :
  storage_contract C →
  same_place check_path dir →
  buildOrLoad check_path dir documents em w = (Ok index, w1) →
  ∀ documents' em',
    buildOrLoad check_path dir documents' em' w1 = (Ok index, w1) ∧
    ∀ index2 w2, buildOrLoad check_path dir documents' em' w1 = (Ok index2, w2) →
      ∀ k question w3,
        query (as_query_engine index2 k) question w3 =
        query (as_query_engine index k) question w3.
Proof.
  intros Hc Hp Hrun documents' em'.
  assert (buildOrLoad check_path dir documents' em' w1 = (Ok index, w1)) as H2.
  { destruct (os.path.exists_ (fs w) check_path) eqn:H.
    - rewrite (buildOrLoad_found _ _ _ _ _ H) in Hrun.
      injection Hrun as Hl <-. by rewrite (buildOrLoad_found _ _ _ _ _ H), Hl.
    - apply buildOrLoad_built in Hrun as (_ & s' & Hs & ->); [|done].
      destruct (Hc _ _ _ _ Hs) as [He Hl].
      rewrite buildOrLoad_found; simpl.
      + by rewrite Hl.
      + by rewrite (exists_same_place _ _ _ Hp). }
  split; [done|]. intros index2 w2. rewrite H2. by intros [= <- <-].
Qed.

End BuildOrLoad.

(** ** Ingestion *)

Section Ingestion.

Context `{C : Collaborators}.

Lemma append_cancel_l a x y : a +:+ x = a +:+ y → x = y.
Proof.
  induction a as [|c a IH]; [done|].
  rewrite !append_cons. intros [= H]. by apply IH.
Qed.

Lemma join_inj D f f' :
  posixpath.valid_name f → posixpath.valid_name f' →
  os.path.join D f = os.path.join D f' → f = f'.
Proof.
  intros [Hf _]%valid_name_plain [Hf' _]%valid_name_plain.
  unfold os.path.join, posixpath.join. rewrite Hf, Hf'.
  destruct (_ || _).
  - apply append_cancel_l.
  - intros H%append_cancel_l. by injection H.
Qed.

Lemma regular_files_valid es f :
  valid_entries es → f ∈ regular_files es → posixpath.valid_name f.
Proof. intros Hv [data H]%elem_of_regular_files. by apply (Hv f (File data)). Qed.

Lemma NoDup_joined_regular_files D es :
  valid_entries es → NoDup (os.path.join D <$> regular_files es).
Proof.
  intros Hv. pose proof (NoDup_regular_files es) as Hnd.
  pose proof (regular_files_valid es) as Hvalid.
  induction Hnd as [|f l Hf Hnd IH]; simpl; constructor.
  - rewrite list_elem_of_fmap. intros (f' & Heq & Hin).
    assert (f = f') as -> by
      (eapply join_inj; [apply Hvalid; [done|left]|apply Hvalid; [done|by right]|done]).
    done.
  - apply IH. intros f' Hv' Hin. apply Hvalid; [done|by right].
Qed.





(** C5.  Loading a batch never raises: the documents of all the files that
    parse come back, in order, and each file that cannot be read or parsed
    is reported with its path and its error; nothing else of the world
    changes. *)
Theorem load_data_reports_failures_per_file p files info w :
  let out := load_data p files info w in
  out.1 = Ok (parsed p (fs w) info files) ∧
  fs out.2 = fs w ∧
  stdout out.2 = stdout w ∧
  parse_failures out.2 = parse_failures w ++ failed p (fs w) files ∧
  (∀ f body, f ∈ files → parse_file p (fs w) f = Ok body →
     mkDocument f body info ∈ parsed p (fs w) info files) ∧
  (∀ f e, f ∈ files → parse_file p (fs w) f = Raise e →
     (f, e) ∈ parse_failures out.2) ∧
  length (parsed p (fs w) info files) + length (failed p (fs w) files) = length files.
Proof.
  intros out. unfold out. rewrite load_data_spec. simpl.
  repeat split; try done.
  - intros f body Hf Hp. apply elem_of_parsed. eauto.
  - intros f e Hf Hp. apply elem_of_app. right. by apply elem_of_failed.
  - clear out. induction files as [|f files IH]; simpl; [done|].
    destruct (parse_file p (fs w) f); simpl; lia.
Qed.

(** C9.  On a directory that does not exist, or that cannot be listed,
    [get_data_files] raises the [OSError] of the directory and leaves the
    world alone; on an empty directory it returns the empty list. *)
Theorem get_data_files_raises_on_missing_directory w D :
  (os.path.exists_ (fs w) D = false ∨
   ∃ es, os.stat (fs w) D = Ok (Dir false es)) →
  (∃ e, get_data_files D w = (Raise (OSError e D), w)) ∧
  (∀ w' D', os.stat (fs w') D' = Ok (Dir true ∅) →
     get_data_files D' w' = (Ok [], w')).
Proof.
  intros H. split.
  - destruct H as [H|[es H]].
    + assert (∃ e, os.stat (fs w) D = Raise (OSError e D)) as [e He].
      { revert H. unfold os.path.exists_, os.stat.
        case_bool_decide; [eauto|]. destruct (os.walk _ _); [done|eauto]. }
      exists e. apply get_data_files_raises. unfold os.listdir. by rewrite He.
    + exists EACCES. apply get_data_files_raises. unfold os.listdir. by rewrite H.
  - intros w' D' H'. by rewrite (get_data_files_spec w' D' ∅ H').
Qed.

End Ingestion.

(** ** Queries *)

Section Queries.

Context `{C : Collaborators}.

(** C8.  The engine made from an index retrieves with the K it was given,
    or with the library's default when it was given none; a query returns
    exactly when retrieval and generation do, and what it returns holds the
    retrieved fragments, in their order, and the answer generated from
    them. *)
Theorem query_returns_answer_with_sources index k question w :
  similarity_top_k (as_query_engine index k) = default DEFAULT_SIMILARITY_TOP_K k ∧
  engine_index (as_query_engine index k) = index ∧
  (∀ r w',
     query (as_query_engine index k) question w = (Ok r, w') ↔
     retrieve index (default DEFAULT_SIMILARITY_TOP_K k) question = Ok (source_nodes r) ∧
     synthesize question (source_nodes r) = Ok (response r) ∧
     w' = w).
Proof.
  split; [done|]. split; [done|]. intros [answer nodes] w'.
  unfold query, bind, calling, ret. simpl.
  destruct (retrieve index _ question) as [nodes'|e].
  - destruct (synthesize question nodes') as [answer'|e] eqn:Hs.
    + split.
      * by intros [= -> -> <-].
      * intros ([= ->] & Hs' & ->). congruence.
    + split; [done|]. intros ([= ->] & Hs' & _). congruence.
  - split; [done|]. by intros [? _].
Qed.

(** The query cell displays the answer and hands the response on. *)
Lemma query_cell_displays_answer qe question w r w1 :
  query qe question w = (Ok r, w1) →
  query_cell qe question w =
    (Ok r, mkWorld (fs w1) (stdout w1 ++ [response r]) (parse_failures w1)).
Proof. intros H. unfold query_cell, bind. by rewrite H. Qed.

End Queries.

(** ** The download cell *)

Section Download.

Context `{C : Collaborators}.

Lemma download_cell_ok w resp s' :
  requests_get url = Ok resp → status_code resp = 200%Z →
  os.write_file (fs w) file_path (content resp) = Ok s' →
  download_cell w =
    (Ok tt, mkWorld s' (stdout w ++ ["Download complete."]) (parse_failures w)) ∧
  os.read_file s' file_path = Ok (content resp).
Proof.
  intros Hr Hs Hw. unfold download_cell, bind, calling, writing, print.
  rewrite Hr, Hs. change (200 =? 200)%Z with true. cbv beta iota.
  rewrite Hw. split; [done|].
  unfold os.read_file. by rewrite (stat_write_file _ _ _ _ Hw).
Qed.

(** C10.  When the download answers with a status other than 200 the cell
    raises nothing, writes nothing and prints one line; the notebook goes on
    to the parsing cell, which is run on the same path in the same file
    system. *)
Theorem download_failure_is_only_printed w resp :
  requests_get url = Ok resp →
  status_code resp ≠ 200%Z →
  let w' :=
    mkWorld (fs w) (stdout w ++ ["Error downloading the file."]) (parse_failures w) in
  download_cell w = (Ok tt, w') ∧
  demo_astradb w = parse_cell w' ∧
  parse_cell w' =
    load_data (mkLlamaParse "text" None false None false) [file_path] ∅ w'.
Proof.
  intros Hr Hs w'.
  assert (download_cell w = (Ok tt, w')) as Hd.
  { unfold download_cell, bind, calling, print. rewrite Hr.
    by rewrite (proj2 (Z.eqb_neq _ _) Hs). }
  split; [done|]. split; [|done].
  unfold demo_astradb, bind. by rewrite Hd.
Qed.

End Download.

(** ** The theorems at work *)

(** The directory of [double.w_good]. *)
Lemma stat_data_good :
  os.stat (fs double.w_good) "data" = Ok (Dir true double.data_entries).
Proof. vm_compute. reflexivity. Qed.

Lemma valid_data_entries : valid_entries double.data_entries.
Proof. apply (bool_decide_unpack _). vm_compute. exact I. Qed.



(** The index cell on a snapshot cut short: the stand-in's decoding error,
    as the loader raised it. *)
Lemma buildOrLoad_relays_loader_witness :
  index_cell (C := double.services) [] double.w_truncated =
    (Raise (Exception "JSONDecodeError" "./storage_legal"), double.w_truncated).
Proof.
  apply (proj1 (buildOrLoad_relays_loader (C := double.services)
    "storage_legal" "./storage_legal" [] embed_model double.w_truncated eq_refl)).
  vm_compute. reflexivity.
Defined.

(** The persisted path holds the snapshot of a two-document index without
    its last byte; the cell fails with the decoding error of the stand-in,
    which is not a corrupt-index error. *)
Lemma truncated_snapshot_gives_decoding_error :
  os.path.exists_ (fs double.w_truncated) "storage_legal" = true ∧
  os.read_file (fs double.w_truncated) "./storage_legal" =
    Ok (removelast (double.encode 2)) ∧
  index_cell (C := double.services) [] double.w_truncated =
    (Raise (Exception "JSONDecodeError" "./storage_legal"), double.w_truncated) ∧
  is_corrupt_index_error (Exception "JSONDecodeError" "./storage_legal") = false.
Proof. repeat split; vm_compute; reflexivity. Qed.

(** No [data] directory: [FileNotFoundError]. *)
Lemma get_data_files_raises_on_missing_directory_witness :
  ∃ e, get_data_files DATA_DIR double.w_none =
         (Raise (OSError e DATA_DIR), double.w_none).
Proof.
  apply (get_data_files_raises_on_missing_directory double.w_none DATA_DIR).
  left. vm_compute. reflexivity.
Defined.

(** The stand-in's HTTP client answers 404. *)
Lemma download_failure_is_only_printed_witness :
  download_cell (C := double.services) double.w_good =
    (Ok tt,
     mkWorld (fs double.w_good) ["Error downloading the file."] []) ∧
  os.path.exists_ (fs double.w_good) file_path = false.
Proof.
  split; [|vm_compute; reflexivity].
  apply (download_failure_is_only_printed (C := double.services)
    double.w_good (mkHttpResponse 404 []) eq_refl).
  done.
Defined.

(** ** More on listing the data directory *)

Section MoreDataFiles.

Lemma get_data_files_loop_total D entries files w :
  ∃ files', get_data_files_loop D entries files w = (Ok files', w).
Proof.
  revert files. induction entries as [|f entries IH]; intros files; simpl.
  - by exists files.
  - unfold bind, reading. simpl. apply IH.
Qed.

Lemma endswith_sep_app_sep D : posixpath.endswith_sep (D +:+ "/") = true.
Proof.
  induction D as [|c D IH]; [done|].
  rewrite append_cons. simpl. rewrite IH.
  by destruct (D +:+ "/") eqn:E; [destruct D|].
Qed.

Lemma components_trailing_sep wd D :
  D ≠ "" → posixpath.components wd (D +:+ "/") = posixpath.components wd D.
Proof.
  intros HD. unfold posixpath.components.
  rewrite (startswith_sep_app D "/" HD).
  rewrite (split_app_sep D ""), foldl_app. done.
Qed.

Lemma stat_trailing_sep s D n :
  os.stat s D = Ok n → os.stat s (D +:+ "/") = Ok n.
Proof.
  intros H. pose proof (stat_not_empty _ _ _ H) as HD.
  pose proof (stat_walk _ _ _ H) as Hw. unfold os.stat.
  rewrite bool_decide_eq_false_2 by (by destruct D).
  by rewrite components_trailing_sep, Hw.
Qed.

Lemma join_trailing_sep D f :
  D ≠ "" → posixpath.endswith_sep D = false → posixpath.valid_name f →
  os.path.join (D +:+ "/") f = os.path.join D f.
Proof.
  intros HD HE [Hf _]%valid_name_plain.
  unfold os.path.join, posixpath.join.
  rewrite Hf, HE, endswith_sep_app_sep, (bool_decide_eq_false_2 _ HD).
  rewrite orb_true_r. simpl. apply append_sep_assoc.
Qed.

(** X1.  On a directory that can be listed and searched [get_data_files]
    returns the joined paths of those of its entries that [os.stat] finds to
    be regular files and nothing else, each once, as many as there are such
    entries, and leaves the world as it was. *)
Theorem get_data_files_exactly_the_regular_files w D es :
  os.stat (fs w) D = Ok (Dir true es) →
  valid_entries es →
  ∃ files,
    get_data_files D w = (Ok files, w) ∧
    NoDup files ∧
    length files = size (regular_entries es) ∧
    (∀ p, p ∈ files ↔
          ∃ f data, es !! f = Some (File data) ∧ p = os.path.join D f).
Proof.
  intros HD Hv. exists (os.path.join D <$> regular_files es).
  split; [by apply get_data_files_spec|].
  split; [by apply NoDup_joined_regular_files|].
  split; [by rewrite length_fmap, length_regular_files|].
  intros p. rewrite list_elem_of_fmap. split.
  - intros (f & -> & [data Hf]%elem_of_regular_files). eauto.
  - intros (f & data & Hf & ->). exists f. split; [done|].
    apply elem_of_regular_files. eauto.
Qed.

(** X3.  A trailing slash on the directory changes nothing: the same paths
    come back, spelled the same. *)
Theorem get_data_files_trailing_slash w D es :
  posixpath.endswith_sep D = false →
  os.stat (fs w) D = Ok (Dir true es) →
  valid_entries es →
  get_data_files (D +:+ "/") w = get_data_files D w.
Proof.
  intros HE HD Hv. pose proof (stat_not_empty _ _ _ HD) as Hne.
  rewrite (get_data_files_spec w D es HD Hv).
  rewrite (get_data_files_spec w (D +:+ "/") es (stat_trailing_sep _ _ _ HD) Hv).
  do 2 f_equal. apply Forall_fmap_ext, Forall_forall.
  intros f [data Hf]%elem_of_regular_files.
  apply join_trailing_sep; [done..|]. by apply (Hv f (File data)).
Qed.

(** X4.  [get_data_files] never changes the world, and it returns a list
    exactly when the path is a directory that can be listed; on a regular
    file or another entry it raises [NotADirectoryError]. *)
Theorem get_data_files_returns_iff_listable w D :
  (get_data_files D w).2 = w ∧
  (is_ok (get_data_files D w).1 = true ↔
   ∃ es, os.stat (fs w) D = Ok (Dir true es)) ∧
  (∀ n, os.stat (fs w) D = Ok n → is_File n = true ∨ n = Socket →
        get_data_files D w = (Raise (OSError ENOTDIR D), w)).
Proof.
  unfold get_data_files, bind, reading, os.listdir.
  destruct (os.stat (fs w) D) as [[data|acc es|]|e] eqn:HD; simpl.
  - repeat split; try done. by intros [? ?].
  - destruct acc; simpl.
    + destruct (get_data_files_loop_total D (map_to_list es).*1 [] w) as [l ->].
      repeat split; simpl; eauto.
      * intros n [= <-] [?|?]; done.
    + repeat split; try done.
      * by intros [? [= ?]].
      * intros n [= <-] [?|?]; done.
  - repeat split; try done. by intros [? ?].
  - repeat split; try done. by intros [? ?].
Qed.

End MoreDataFiles.

(** ** More on the download cell *)

Section MoreDownload.

Context `{C : Collaborators}.

Lemma store_step c c1 cs data es :
  os.store (c :: c1 :: cs) data (Dir true es) =
    match es !! c with
    | Some m =>
        res_bind (os.store (c1 :: cs) data m) (λ m', Ok (Dir true (<[c := m']> es)))
    | None => Raise ENOENT
    end.
Proof. reflexivity. Qed.

(** Storing the same bytes again changes nothing. *)
Lemma store_again cs data n n' :
  os.store cs data n = Ok n' → os.store cs data n' = Ok n'.
Proof.
  revert n n'. induction cs as [|c cs IH]; intros n n' Hs.
  - by destruct n.
  - destruct n as [|acc es|]; [done| |done].
    destruct acc; [|done].
    destruct cs as [|c1 cs].
    + assert (n' = Dir true (<[c := File data]> es)) as ->.
      { simpl in Hs. destruct (es !! c) as [[]|]; naive_solver. }
      simpl. by rewrite lookup_insert_eq, insert_insert_eq.
    + rewrite store_step in Hs.
      destruct (es !! c) as [m|] eqn:E; [|done].
      destruct (os.store (c1 :: cs) data m) as [m'|] eqn:Hm; [|done].
      injection Hs as <-. rewrite store_step, lookup_insert_eq.
      rewrite (IH m m' Hm). simpl. by rewrite insert_insert_eq.
Qed.

(** There is no storing onto a directory. *)
Lemma store_onto_directory cs data n a es :
  os.walk cs n = Ok (Dir a es) → os.store cs data n = Raise EISDIR.
Proof.
  revert n. induction cs as [|c cs IH]; intros n.
  - simpl. by intros [= ->].
  - destruct n as [|acc e|]; [done| |done]. simpl.
    destruct acc; [|done].
    destruct (e !! c) as [m|] eqn:E; [|done]. simpl. intros Hw.
    destruct cs as [|c1 cs].
    + simpl in Hw. by injection Hw as ->.
    + by rewrite (IH m Hw).
Qed.

Lemma download_cell_200 w resp :
  requests_get url = Ok resp → status_code resp = 200%Z →
  download_cell w =
    match os.write_file (fs w) file_path (content resp) with
    | Ok s' =>
        (Ok tt, mkWorld s' (stdout w ++ ["Download complete."]) (parse_failures w))
    | Raise e => (Raise e, w)
    end.
Proof.
  intros Hr Hs. unfold download_cell, bind, calling, writing, print.
  rewrite Hr, Hs. change (200 =? 200)%Z with true. cbv beta iota.
  destruct (os.write_file _ _ _); [done|]. by destruct w.
Qed.

(** X5.  When the target path held a regular file or nothing, after a
    download that answered 200 and returned the path holds a regular file
    with exactly the body of the response, and one line was printed. *)
Theorem download_stores_the_body w resp w1 :
  requests_get url = Ok resp →
  status_code resp = 200%Z →
  os.path.isfile (fs w) file_path = true ∨ os.path.exists_ (fs w) file_path = false →
  download_cell w = (Ok tt, w1) →
  file_at (fs w1) file_path = Some (content resp) ∧
  stdout w1 = stdout w ++ ["Download complete."] ∧
  parse_failures w1 = parse_failures w.
Proof.
  intros Hr Hs _. rewrite (download_cell_200 w resp Hr Hs).
  destruct (os.write_file (fs w) file_path (content resp)) as [s'|] eqn:Hw; [|done].
  intros [= <-]. simpl. apply stat_write_file in Hw.
  unfold file_at. by rewrite Hw.
Qed.

(** X6.  When the target path is a directory, a download that answered 200
    raises [IsADirectoryError]: nothing is written and nothing is printed. *)
Theorem download_onto_directory_raises w resp a es :
  requests_get url = Ok resp →
  status_code resp = 200%Z →
  os.stat (fs w) file_path = Ok (Dir a es) →
  download_cell w = (Raise (OSError EISDIR file_path), w).
Proof.
  intros Hr Hs Hd. rewrite (download_cell_200 w resp Hr Hs).
  unfold os.write_file. simpl.
  by rewrite (store_onto_directory _ _ _ _ _ (stat_walk _ _ _ Hd)).
Qed.

(** X7.  Running the download cell again after a download that answered 200
    and returned leaves the file system as the first run left it; only the
    line is printed again. *)
Theorem download_again_changes_nothing w resp w1 :
  requests_get url = Ok resp →
  status_code resp = 200%Z →
  download_cell w = (Ok tt, w1) →
  download_cell w1 =
    (Ok tt, mkWorld (fs w1) (stdout w1 ++ ["Download complete."]) (parse_failures w1)).
Proof.
  intros Hr Hs. rewrite !(download_cell_200 _ resp Hr Hs).
  destruct (os.write_file (fs w) file_path (content resp)) as [s'|] eqn:Hw; [|done].
  intros [= <-]. simpl.
  revert Hw. unfold os.write_file. case_bool_decide; [done|].
  destruct (os.store _ _ (root (fs w))) as [r|] eqn:Hst; [|done].
  intros [= <-]. simpl. by rewrite (store_again _ _ _ _ Hst).
Qed.

End MoreDownload.

(** ** More on the pipeline of the legal-documents notebook *)

Section MorePipeline.

Context `{C : Collaborators}.

(** X8.  When persisting raises after the index was built, the cell raises
    that error and keeps what persisting left behind; if the tested path
    exists by then, every later run takes the loader's outcome on that
    state, whatever the documents: the index is never built again. *)
Theorem interrupted_persist_blocks_rebuild
    check_path dir documents em w index e s' :
  os.path.exists_ (fs w) check_path = false →
  VectorStoreIndex documents em = Ok index →
  persist index dir (fs w) = (Raise e, s') →
  buildOrLoad check_path dir documents em w = (Raise e, with_fs w s') ∧
  (os.path.exists_ s' check_path = true →
   ∀ documents' em',
     buildOrLoad check_path dir documents' em' (with_fs w s') =
       (load_index_from_storage (mkStorageContext dir) s', with_fs w s')).
Proof.
  intros Hex Hb Hp. split.
  - by rewrite (buildOrLoad_missing _ _ _ _ _ Hex), Hb, Hp.
  - intros Hex' documents' em'. by rewrite buildOrLoad_found.
Qed.

(** X9.  The notebook lists and parses the data directory before it looks
    for a persisted index: when the directory cannot be listed the notebook
    raises that error and does nothing else, persisted index or not. *)
Theorem legal_rag_needs_the_data_directory w e :
  os.listdir (fs w) DATA_DIR = Raise e →
  legal_rag w = (Raise e, w).
Proof.
  intros H. unfold legal_rag, ingest, bind.
  by rewrite (get_data_files_raises w DATA_DIR e H).
Qed.

(** What a query gives; it does not depend on the world. *)
Definition query_result (qe : QueryEngine) (question : string) : result exn Response :=
  match retrieve (engine_index qe) (similarity_top_k qe) question with
  | Ok nodes =>
      match synthesize question nodes with
      | Ok answer => Ok (mkResponse answer nodes)
      | Raise e => Raise e
      end
  | Raise e => Raise e
  end.

Lemma query_query_result qe question w :
  query qe question w = (query_result qe question, w).
Proof.
  unfold query, query_result, bind, calling, ret.
  destruct (retrieve _ _ _); [|done]. by destruct (synthesize _ _).
Qed.

(** The world after the answers of [rs] were displayed. *)
Definition displayed (w : World) (rs : list Response) : World :=
  mkWorld (fs w) (stdout w ++ (response <$> rs)) (parse_failures w).

Lemma displayed_nil w : displayed w [] = w.
Proof. unfold displayed. simpl. rewrite app_nil_r. by destruct w. Qed.

Lemma displayed_cons w r rs :
  displayed (displayed w [r]) rs = displayed w (r :: rs).
Proof. unfold displayed. simpl. by rewrite <- app_assoc. Qed.

Lemma query_cell_result qe q w :
  query_cell qe q w =
    match query_result qe q with
    | Ok r => (Ok r, displayed w [r])
    | Raise e => (Raise e, w)
    end.
Proof.
  unfold query_cell, bind. rewrite query_query_result.
  by destruct (query_result qe q).
Qed.

Lemma query_cells_cons qe q qs w :
  query_cells qe (q :: qs) w =
    match query_result qe q with
    | Ok r =>
        match query_cells qe qs (displayed w [r]) with
        | (Ok rs, w') => (Ok (r :: rs), w')
        | (Raise e, w') => (Raise e, w')
        end
    | Raise e => (Raise e, w)
    end.
Proof.
  cbn [query_cells]. unfold bind at 1. rewrite query_cell_result.
  destruct (query_result qe q); [|done]. unfold bind, ret.
  by destruct (query_cells qe qs _) as [[] ?].
Qed.

(** X10.  The query cells return exactly when every query does, and then one
    answer per question was displayed, in the order of the questions, and
    nothing else changed; when a query raises, the run stops there with the
    answers of the earlier questions displayed. *)
Theorem query_cells_display_answers_in_order qe qs w :
  (∀ rs w',
     query_cells qe qs w = (Ok rs, w') ↔
     Forall2 (λ q r, query_result qe q = Ok r) qs rs ∧ w' = displayed w rs) ∧
  (∀ e w',
     query_cells qe qs w = (Raise e, w') →
     ∃ qs1 q qs2 rs,
       qs = qs1 ++ q :: qs2 ∧
       Forall2 (λ q r, query_result qe q = Ok r) qs1 rs ∧
       query_result qe q = Raise e ∧
       w' = displayed w rs).
Proof.
  revert w. induction qs as [|q qs IH]; intros w.
  - split.
    + intros rs w'. simpl. unfold ret. split.
      * intros [= <- <-]. by rewrite displayed_nil.
      * intros [->%Forall2_nil_inv_l ->]. by rewrite displayed_nil.
    + intros e w'. simpl. by unfold ret.
  - rewrite query_cells_cons.
    destruct (query_result qe q) as [r|e0] eqn:Hq.
    + destruct (IH (displayed w [r])) as [IHok IHraise].
      destruct (query_cells qe qs (displayed w [r])) as [[rs0|e1] w0] eqn:Hrun.
      * split; [|done]. intros rs w'. split.
        -- intros [= <- <-]. destruct (proj1 (IHok rs0 w0) eq_refl) as [HF ->].
           split; [by constructor|]. by rewrite displayed_cons.
        -- intros [HF ->]. apply Forall2_cons_inv_l in HF as (r' & rs' & Hr & HF & ->).
           assert (r' = r) as -> by congruence.
           pose proof (proj2 (IHok rs' (displayed (displayed w [r]) rs'))
             (conj HF eq_refl)) as H2.
           injection H2 as -> ->. by rewrite displayed_cons.
      * split.
        { intros rs w'. split; [done|].
          intros [(r' & rs' & Hr & HF & ->)%Forall2_cons_inv_l _].
          by pose proof (proj2 (IHok rs' _) (conj HF eq_refl)). }
        intros e w' [= <- <-].
        destruct (IHraise e1 w0 eq_refl) as (qs1 & q' & qs2 & rs & -> & HF & He & ->).
        exists (q :: qs1), q', qs2, (r :: rs).
        split; [done|]. split; [by constructor|]. split; [done|].
        by rewrite displayed_cons.
    + split.
      * intros rs w'. split; [done|].
        intros [(r' & rs' & Hr & _ & _)%Forall2_cons_inv_l _]. congruence.
      * intros e w' [= <- <-]. exists [], q, qs, [].
        split; [done|]. split; [constructor|]. split; [done|].
        by rewrite displayed_nil.
Qed.

End MorePipeline.

(** ** The credential cells *)

Section Credentials.

(** X11.  The setup cell of the legal-documents notebook puts its two
    placeholders in the environment whatever was there, a key exported
    beforehand included; it touches no other variable, and running it again
    changes nothing. *)
Theorem setup_cell_overwrites_keys p :
  environ (setup_cell p) !! "OPENAI_API_KEY" = Some "<Your OpenAI API Key>" ∧
  environ (setup_cell p) !! "LLAMA_CLOUD_API_KEY" = Some "<Your LlamaCloud API Key>" ∧
  (∀ k, k ≠ "OPENAI_API_KEY" → k ≠ "LLAMA_CLOUD_API_KEY" →
        environ (setup_cell p) !! k = environ p !! k) ∧
  openai_api_key (setup_cell p) = openai_api_key p ∧
  setup_cell (setup_cell p) = setup_cell p.
Proof.
  unfold setup_cell. simpl. split; [|split; [|split; [|split]]].
  - by rewrite lookup_insert_ne, lookup_insert_eq.
  - by rewrite lookup_insert_eq.
  - intros k H1 H2. by rewrite !lookup_insert_ne.
  - done.
  - f_equal. apply map_eq. intros k.
    destruct (decide (k = "LLAMA_CLOUD_API_KEY")) as [->|H1];
      [by rewrite !lookup_insert_eq|].
    rewrite !(lookup_insert_ne _ "LLAMA_CLOUD_API_KEY") by done.
    destruct (decide (k = "OPENAI_API_KEY")) as [->|H2];
      [by rewrite !lookup_insert_eq|].
    by rewrite !lookup_insert_ne.
Qed.

(** X12.  The configuration cell of the AstraDB notebook checks nothing: the
    namespace is [None] exactly when nothing was typed for it and the typed
    text otherwise; the parsing key goes to the environment as typed, empty
    or not, and no other variable changes (the OpenAI key is never put in
    the environment); the OpenAI key goes, as typed, to the [openai] module
    and to the embedding model. *)
Theorem configuration_cell_stores_what_was_typed t p :
  let c := (configuration_cell t p).1 in
  let p' := (configuration_cell t p).2 in
  (namespace c = None ↔ typed_namespace t = "") ∧
  (∀ s, namespace c = Some s ↔ s = typed_namespace t ∧ s ≠ "") ∧
  environ p' !! "LLAMA_CLOUD_API_KEY" = Some (typed_llama_cloud_api_key t) ∧
  (∀ k, k ≠ "LLAMA_CLOUD_API_KEY" → environ p' !! k = environ p !! k) ∧
  openai_api_key p' = Some (typed_openai_api_key t) ∧
  api_key (astra_embed_model c) = Some (typed_openai_api_key t).
Proof.
  simpl. unfold or_None. split; [|split; [|split; [|split]]].
  - by case_bool_decide.
  - intros s. case_bool_decide as Hn; split.
    + done.
    + intros [-> ?]. done.
    + by intros [= <-].
    + by intros [-> _].
  - by rewrite lookup_insert_eq.
  - intros k Hk. by rewrite lookup_insert_ne.
  - done.
Qed.

End Credentials.

(** ** The look at the parsed text *)

Section Peek.

Lemma append_assoc a b c : (a +:+ b) +:+ c = a +:+ (b +:+ c).
Proof.
  induction a as [|x a IH]; [done|]. by rewrite !append_cons, IH.
Qed.

Lemma len_app a b : len (a +:+ b) = len a + len b.
Proof.
  induction a as [|x a IH]; [done|]. rewrite append_cons. simpl. rewrite IH. lia.
Qed.

Lemma take_skip_continuation s :
  take_continuation s +:+ skip_continuation s = s.
Proof.
  induction s as [|c s IH]; [done|]. simpl.
  destruct (is_continuation c); [|done]. by rewrite append_cons, IH.
Qed.

Lemma len_take_continuation s : len (take_continuation s) = 0.
Proof.
  induction s as [|c s IH]; [done|]. simpl.
  destruct (is_continuation c) eqn:E; [|done]. simpl. by rewrite E.
Qed.

Lemma len_skip_continuation s : len (skip_continuation s) = len s.
Proof.
  induction s as [|c s IH]; [done|]. simpl.
  destruct (is_continuation c) eqn:E; [done|]. simpl. by rewrite E.
Qed.

Lemma skip_continuation_begins s :
  begins_inside_character (skip_continuation s) = false.
Proof.
  induction s as [|c s IH]; [done|]. simpl.
  destruct (is_continuation c) eqn:E; [done|]. simpl. done.
Qed.

(** A string is what is taken of it and what is left. *)
Lemma take_drop_chars n s : take_chars n s +:+ drop_chars n s = s.
Proof.
  revert s. induction n as [|n IH]; intros [|c s]; try done.
  simpl. rewrite append_cons, append_assoc, IH. by rewrite take_skip_continuation.
Qed.

Lemma len_take_chars n s :
  begins_inside_character s = false →
  len (take_chars n s) = n `min` len s.
Proof.
  revert s. induction n as [|n IH]; intros [|c s] Hs; try done.
  cbn [begins_inside_character] in Hs. cbn [take_chars len]. rewrite Hs.
  rewrite len_app, len_take_continuation.
  rewrite IH by apply skip_continuation_begins.
  rewrite len_skip_continuation. lia.
Qed.

Lemma len_drop_chars n s :
  begins_inside_character s = false →
  len (drop_chars n s) = len s - n.
Proof.
  revert s. induction n as [|n IH]; intros [|c s] Hs; try done.
  - cbn [drop_chars]. lia.
  - cbn [begins_inside_character] in Hs. cbn [drop_chars len]. rewrite Hs.
    rewrite IH by apply skip_continuation_begins.
    rewrite len_skip_continuation. lia.
Qed.

Lemma drop_chars_begins n s :
  begins_inside_character s = false →
  begins_inside_character (drop_chars n s) = false.
Proof.
  destruct n as [|n]; [done|]. destruct s as [|c s]; [done|]. intros _. simpl.
  revert s. induction n as [|n IH]; intros s; simpl.
  - apply skip_continuation_begins.
  - destruct (skip_continuation s) as [|c' s'] eqn:E; [done|]. apply IH.
Qed.

Lemma take_chars_begins n s :
  begins_inside_character s = false →
  begins_inside_character (take_chars n s) = false.
Proof. destruct n, s; done. Qed.

(** X13.  The look at the first document raises [IndexError] when there is
    no document; otherwise it never raises, however short the text is, and
    shows the characters from [start] up to [stop], as many of them as the
    text has, cut out of the text between two characters: at most 1000 in
    the notebook's cell, and none at all when the text has 10000 characters
    or fewer. *)
#[warnings="-abstract-large-number"]
Theorem peek_shows_the_slice documents start stop :
  match documents with
  | [] =>
      peek documents start stop =
        Raise (Exception "IndexError" "list index out of range")
  | d :: _ =>
      begins_inside_character (text d) = false →
      ∃ s, peek documents start stop = Ok s ∧
           len s = (stop - start) `min` (len (text d) - start) ∧
           ∃ before after,
             text d = before +:+ s +:+ after ∧
             len before = start `min` len (text d) ∧
             begins_inside_character s = false ∧
             begins_inside_character after = false
  end ∧
  match documents with
  | [] => True
  | d :: _ =>
      begins_inside_character (text d) = false →
      ∃ s, peek_cell documents = Ok s ∧
           len s = 1000 `min` (len (text d) - 10000)
  end.
Proof.
  assert (∀ d rest a b, begins_inside_character (text d) = false →
    ∃ s, peek (d :: rest) a b = Ok s ∧
      len s = (b - a) `min` (len (text d) - a) ∧
      ∃ before after,
        text d = before +:+ s +:+ after ∧
        len before = a `min` len (text d) ∧
        begins_inside_character s = false ∧
        begins_inside_character after = false) as H.
  { intros d rest a b Hd. exists (slice (text d) a b). split; [done|].
    pose proof (drop_chars_begins a _ Hd) as Ha.
    unfold slice. split.
    - by rewrite len_take_chars, len_drop_chars.
    - exists (take_chars a (text d)),
        (drop_chars (b - a) (drop_chars a (text d))).
      split; [by rewrite !take_drop_chars|].
      split; [by apply len_take_chars|].
      split; [by apply take_chars_begins|by apply drop_chars_begins]. }
  destruct documents as [|d rest]; [done|]. split; [apply H|].
  intros Hd. unfold peek_cell. edestruct H as (s & Hs & Hl & _); [exact Hd|].
  exists s. split; [exact Hs|]. rewrite Hl. reflexivity.
Qed.

(** Three two-byte characters and six of one byte: nine characters, so
    nothing from the tenth on, and the fourth and fifth are [ab]. *)
Example slice_counts_characters :
  len "éééabcdef" = 9 ∧
  slice "éééabcdef" 10 12 = ""%string ∧
  slice "éééabcdef" 3 5 = "ab"%string ∧
  slice "éééabcdef" 1 4 = "ééa"%string.
Proof. repeat split; vm_compute; reflexivity. Qed.

End Peek.

(** ** These theorems at work *)

(** [data] of [double.w_good] holds one regular file among three entries. *)
Lemma get_data_files_exactly_the_regular_files_witness :
  ∃ files,
    get_data_files "data" double.w_good = (Ok files, double.w_good) ∧
    NoDup files ∧
    length files = size (regular_entries double.data_entries) ∧
    (∀ p, p ∈ files ↔
          ∃ f data, double.data_entries !! f = Some (File data) ∧
                    p = os.path.join "data" f).
Proof.
  apply (get_data_files_exactly_the_regular_files double.w_good "data"
           double.data_entries stat_data_good valid_data_entries).
Defined.

Lemma get_data_files_trailing_slash_witness :
  get_data_files "data/" double.w_good = get_data_files "data" double.w_good.
Proof.
  apply (get_data_files_trailing_slash double.w_good "data"
           double.data_entries eq_refl stat_data_good valid_data_entries).
Defined.

(** The download into a working directory with an older [attention.pdf]. *)
Lemma download_stores_the_body_witness :
  let w1 := (download_cell (C := online.services) online.w_older).2 in
  file_at (fs online.w_older) "./attention.pdf" = Some double.bad_pdf ∧
  file_at (fs w1) "./attention.pdf" = Some online.body.
Proof.
  intros w1. split; [vm_compute; reflexivity|].
  apply (download_stores_the_body (C := online.services)
    online.w_older (mkHttpResponse 200 online.body) w1 eq_refl eq_refl).
  - left. vm_compute. reflexivity.
  - vm_compute. reflexivity.
Defined.

Lemma download_onto_directory_raises_witness :
  download_cell (C := online.services) online.w_blocked =
    (Raise (OSError EISDIR "./attention.pdf"), online.w_blocked).
Proof.
  apply (download_onto_directory_raises (C := online.services)
           online.w_blocked (mkHttpResponse 200 online.body) true ∅ eq_refl eq_refl).
  vm_compute. reflexivity.
Defined.

Lemma download_again_changes_nothing_witness :
  let w1 := (download_cell (C := online.services) online.w_older).2 in
  fs (download_cell (C := online.services) w1).2 = fs w1 ∧
  (download_cell (C := online.services) w1).1 = Ok tt.
Proof.
  intros w1.
  rewrite (download_again_changes_nothing (C := online.services)
    online.w_older (mkHttpResponse 200 online.body) w1 eq_refl eq_refl).
  - done.
  - vm_compute. reflexivity.
Defined.

(** The store that is interrupted: the first run raises, and the second run,
    with a document to index, fails in the loader. *)
Lemma interrupted_persist_blocks_rebuild_witness :
  let w1 := (index_cell (C := flaky.services) [] double.w_good).2 in
  (index_cell (C := flaky.services) [] double.w_good).1 =
    Raise (Exception "OSError" "No space left on device") ∧
  index_cell (C := flaky.services) [mkDocument "x" "y" ∅] w1 =
    (Raise (Exception "JSONDecodeError" "./storage_legal"), w1).
Proof.
  intros w1.
  destruct (interrupted_persist_blocks_rebuild (C := flaky.services)
    "storage_legal" "./storage_legal" [] embed_model double.w_good
    (0 : @Index flaky.services)
    (Exception "OSError" "No space left on device") (fs w1)
    eq_refl eq_refl) as [H1 H2].
  - vm_compute. reflexivity.
  - split.
    + unfold index_cell. by rewrite H1.
    + unfold index_cell.
      replace w1 with (with_fs double.w_good (fs w1)) at 1 2
        by (vm_compute; reflexivity).
      rewrite H2; [|vm_compute; reflexivity].
      f_equal.
Defined.

(** A persisted index and no data directory. *)
Lemma legal_rag_needs_the_data_directory_witness :
  os.path.exists_ (fs double.w_truncated) "storage_legal" = true ∧
  legal_rag (C := double.services) double.w_truncated =
    (Raise (OSError ENOENT "data"), double.w_truncated).
Proof.
  split; [vm_compute; reflexivity|].
  apply (legal_rag_needs_the_data_directory (C := double.services)).
  vm_compute. reflexivity.
Defined.
